(** * The API client of [offdeal-frontend/src/lib/api.ts]

    A shallow embedding of the fetch wrapper: the base URL taken from the
    environment, the response unwrapper [j] and the eight operations of
    the [api] object, followed by the properties of its observable
    contract.

    JavaScript strings are modelled as [string]; the numbers the client
    handles (HTTP statuses and resource ids) are integers and are
    modelled as [Z], faithfully so for the safe integers; a promise is
    modelled by the way it settles. *)

From Stdlib Require Import ZArith List Bool.
From Stdlib Require Import Strings.String Strings.Ascii Numbers.DecimalString.
From Stdlib Require Numbers.DecimalZ Numbers.DecimalPos.
Import ListNotations.

#[local] Set Warnings "-register-all".
Open Scope string_scope.

(** ** The JavaScript values and built-ins the client uses *)

Module JS.

(** Truthiness of a string: only the empty string is falsy. *)
Definition truthy (s : string) : bool :=
  match s with
  | EmptyString => false
  | String _ _ => true
  end.

(** [a || b] where [a] is a string or [undefined] and [b] a string. *)
Definition or_else (a : option string) (b : string) : string :=
  match a with
  | Some s => if truthy s then s else b
  | None => b
  end.

(** [x?.f()] : the call is skipped when the receiver is [undefined]. *)
Definition opt_chain {A B : Type} (x : option A) (f : A -> B) : option B :=
  match x with
  | Some a => Some (f a)
  | None => None
  end.

(** Number-to-string conversion of an integer, as a template literal
    [`${n}`] performs it: decimal digits, a leading minus sign for a
    negative number. This is the printer of the program for the safe
    integers, those of absolute value below [2^53]; a larger [Z] is not
    a number the program can hold exactly, and its digits here are not
    what the program would print. *)
Definition number_to_string (n : Z) : string :=
  NilZero.string_of_int (Z.to_int n).

(** The values that reach [JSON.stringify] and come back from
    [Response.json()]: JSON data. An object is the list of its own
    enumerable properties in enumeration order; [Number n] is the
    integer [n], meant for the safe integers as [number_to_string] is. *)
Inductive value : Type :=
| Undefined
| Null
| Bool (b : bool)
| Number (n : Z)
| Str (s : string)
| Array (items : list value)
| Object (props : list (string * value)).

(** An error object: its [name] and its [message]. *)
Record exn : Type := mkExn { name : string; message : string }.

(** [new Error(msg)] *)
Definition Error (msg : string) : exn :=
  {| name := "Error"; message := msg |}.

End JS.

(** ** [String.prototype.replace] with the pattern [/\/+$/] *)

Module Regex.

Definition slash : ascii := "/"%char.

(** The pattern [\/+$] tried at the head of [s]: one slash, then either
    more of the greedy [\/+] or, on backtracking, the end anchor. *)
Fixpoint slashes_to_end (s : string) : bool :=
  match s with
  | String c rest =>
      if Ascii.eqb c slash
      then slashes_to_end rest || (match rest with EmptyString => true | _ => false end)
      else false
  | EmptyString => false
  end.

(** [s.replace(/\/+$/, "")]: the leftmost position where the pattern
    matches is looked for; the match runs to the end of the input, so
    what is left is the text before it. Without a match [s] is
    returned as it is. *)
Fixpoint replace_trailing_slashes (s : string) : string :=
  if slashes_to_end s then EmptyString
  else match s with
       | EmptyString => EmptyString
       | String c rest => String c (replace_trailing_slashes rest)
       end.

End Regex.

(** ** The base URL *)

(** [const BASE = process.env.NEXT_PUBLIC_API_BASE?.replace(/\/+$/, "") || ""]
    where [NEXT_PUBLIC_API_BASE] is [None] when the variable is unset. *)
Definition BASE (NEXT_PUBLIC_API_BASE : option string) : string :=
  JS.or_else (JS.opt_chain NEXT_PUBLIC_API_BASE Regex.replace_trailing_slashes) "".

(** ** [JSON.stringify] *)

Module JSON.
Import JS.

Definition dquote : ascii := "034"%char.
Definition backslash : ascii := "092"%char.

Definition hex_digit (n : N) : ascii :=
  if (n <? 10)%N then ascii_of_N (48 + n) else ascii_of_N (87 + n).

(** One character of a quoted JSON string: the quote and the backslash
    are escaped, control characters take their short escape or the
    [\u00XX] form, every other character stands for itself. *)
Definition escape (c : ascii) : string :=
  let n := N_of_ascii c in
  if (n =? 34)%N then String backslash (String dquote EmptyString)
  else if (n =? 92)%N then String backslash (String backslash EmptyString)
  else if (n =? 8)%N then String backslash "b"
  else if (n =? 9)%N then String backslash "t"
  else if (n =? 10)%N then String backslash "n"
  else if (n =? 12)%N then String backslash "f"
  else if (n =? 13)%N then String backslash "r"
  else if (n <? 32)%N
       then String backslash
              ("u00" ++ String (hex_digit (n / 16)) (String (hex_digit (n mod 16)) EmptyString))
  else String c EmptyString.

Fixpoint escape_all (s : string) : string :=
  match s with
  | EmptyString => EmptyString
  | String c rest => escape c ++ escape_all rest
  end.

Definition quote (s : string) : string :=
  String dquote (escape_all s ++ String dquote EmptyString).

(** [JSON.stringify(v)]: [None] stands for the result [undefined]. A
    property whose value serializes to [undefined] is left out of an
    object; in an array such an item is written [null]. *)
Fixpoint stringify (v : value) : option string :=
  match v with
  | Undefined => None
  | Null => Some "null"
  | Bool b => Some (if b then "true" else "false")
  | Number n => Some (number_to_string n)
  | Str s => Some (quote s)
  | Array items =>
      Some ("[" ++ String.concat ","
                     (map (fun x => match stringify x with
                                    | Some t => t
                                    | None => "null"
                                    end) items) ++ "]")
  | Object props =>
      Some ("{" ++ String.concat ","
                     (flat_map (fun kv => match kv with
                                          | (k, x) =>
                                              match stringify x with
                                              | Some t => [quote k ++ ":" ++ t]
                                              | None => []
                                              end
                                          end) props) ++ "}")
  end.

End JSON.

(** ** Promises and the [fetch] interface *)

Module Fetch.

(** How a promise settles. *)
Inductive settled (A : Type) : Type :=
| Fulfilled (a : A)
| Rejected (e : JS.exn).
Arguments Fulfilled {A} a.
Arguments Rejected {A} e.

(** The second argument of [fetch]; a field that the object literal
    does not mention is [None] (and [headers] is empty). *)
Record RequestInit : Type := mkInit {
  method : option string;
  headers : list (string * string);
  body : option string;
  cache : option string
}.

(** [fetch(url)] without a second argument. *)
Definition no_init : RequestInit :=
  {| method := None; headers := []; body := None; cache := None |}.

(** One call of [fetch]. *)
Record Request : Type := mkRequest { url : string; init : RequestInit }.

(** The HTTP method of a request: [GET] unless [init] names one. *)
Definition method_of (r : Request) : string :=
  match method (init r) with
  | Some m => m
  | None => "GET"
  end.

(** What the client reads of a [Response]: the [ok] flag (which the
    platform sets for the statuses 200 to 299), the status code, and the
    promises returned by [text()] and [json()]. *)
Record Response : Type := mkResponse {
  ok : bool;
  status : Z;
  text : settled string;
  json : settled JS.value
}.

(** The remote side: the promise [fetch] returns for a request. *)
Definition Network : Type := Request -> settled Response.

(** An asynchronous computation: it runs against a network, appends
    the requests it issues to the log and settles. *)
Definition Async (A : Type) : Type :=
  Network -> list Request -> list Request * settled A.

Definition ret {A : Type} (a : A) : Async A :=
  fun _ log => (log, Fulfilled a).

(** [throw e] in an [async] function. *)
Definition throw {A : Type} (e : JS.exn) : Async A :=
  fun _ log => (log, Rejected e).

(** [const x = await m; k x]: a rejection of [m] is rethrown. *)
Definition bind {A B : Type} (m : Async A) (k : A -> Async B) : Async B :=
  fun net log =>
    match m net log with
    | (log', Fulfilled a) => k a net log'
    | (log', Rejected e) => (log', Rejected e)
    end.

(** [m.catch(h)] *)
Definition catch {A : Type} (m : Async A) (h : JS.exn -> Async A) : Async A :=
  fun net log =>
    match m net log with
    | (log', Fulfilled a) => (log', Fulfilled a)
    | (log', Rejected e) => h e net log'
    end.

(** A promise that is already on hand, such as [res.text()]. *)
Definition promise {A : Type} (p : settled A) : Async A :=
  fun _ log => (log, p).

(** [fetch(url, init)] *)
Definition fetch (u : string) (i : RequestInit) : Async Response :=
  fun net log =>
    let req := {| url := u; init := i |} in
    ((log ++ [req])%list, net req).

(** Running a computation from an empty log. *)
Definition run {A : Type} (m : Async A) (net : Network) : list Request * settled A :=
  m net [].

Definition issued {A : Type} (m : Async A) (net : Network) : list Request :=
  fst (run m net).

Definition outcome {A : Type} (m : Async A) (net : Network) : settled A :=
  snd (run m net).

End Fetch.

Notation "x <- m ;; k" := (Fetch.bind m (fun x => k))
  (at level 61, m at next level, right associativity).

(** ** The client *)

Module Api.
Import Fetch.

(** [async function j<T>(res: Response): Promise<T>] *)
Definition j (res : Response) : Async JS.value :=
  if negb (ok res) then
    msg <- catch (promise (text res)) (fun _ => ret EmptyString) ;;
    throw (JS.Error (JS.or_else (Some msg) ("HTTP " ++ JS.number_to_string (status res))))
  else
    promise (json res).

Definition json_headers : list (string * string) :=
  [("Content-Type", "application/json")].

Section Client.

(** The value of [process.env.NEXT_PUBLIC_API_BASE]. *)
Variable env : option string.

Definition listProspects : Async JS.value :=
  res <- fetch (BASE env ++ "/prospects")
           {| method := None; headers := []; body := None; cache := Some "no-store" |} ;;
  j res.

Definition createProspect (payload : JS.value) : Async JS.value :=
  res <- fetch (BASE env ++ "/prospects")
           {| method := Some "POST"; headers := json_headers;
              body := JSON.stringify payload; cache := None |} ;;
  j res.

Definition generateDeck (prospectId : Z) : Async JS.value :=
  res <- fetch (BASE env ++ "/decks/" ++ JS.number_to_string prospectId ++ "/generate")
           {| method := Some "POST"; headers := []; body := None; cache := None |} ;;
  j res.

Definition renderDeck (deckId : Z) : Async JS.value :=
  res <- fetch (BASE env ++ "/decks/" ++ JS.number_to_string deckId ++ "/render")
           {| method := Some "POST"; headers := []; body := None; cache := None |} ;;
  j res.

Definition updateDeck (deckId : Z) (payload : JS.value) : Async JS.value :=
  res <- fetch (BASE env ++ "/decks/" ++ JS.number_to_string deckId)
           {| method := Some "PATCH"; headers := json_headers;
              body := JSON.stringify payload; cache := None |} ;;
  j res.

Definition generateEmails (prospectId : Z) : Async JS.value :=
  res <- fetch (BASE env ++ "/emails/" ++ JS.number_to_string prospectId ++ "/generate")
           {| method := Some "POST"; headers := []; body := None; cache := None |} ;;
  j res.

Definition listEmails (prospectId : Z) : Async JS.value :=
  res <- fetch (BASE env ++ "/emails/" ++ JS.number_to_string prospectId) no_init ;;
  j res.

Definition updateEmail (id : Z) (payload : JS.value) : Async JS.value :=
  res <- fetch (BASE env ++ "/emails/item/" ++ JS.number_to_string id)
           {| method := Some "PATCH"; headers := json_headers;
              body := JSON.stringify payload; cache := None |} ;;
  j res.

(** A call of one of the members of the [api] object. *)
Inductive operation : Type :=
| ListProspects
| CreateProspect (payload : JS.value)
| GenerateDeck (prospectId : Z)
| RenderDeck (deckId : Z)
| UpdateDeck (deckId : Z) (payload : JS.value)
| GenerateEmails (prospectId : Z)
| ListEmails (prospectId : Z)
| UpdateEmail (id : Z) (payload : JS.value).

Definition call (op : operation) : Async JS.value :=
  match op with
  | ListProspects => listProspects
  | CreateProspect payload => createProspect payload
  | GenerateDeck prospectId => generateDeck prospectId
  | RenderDeck deckId => renderDeck deckId
  | UpdateDeck deckId payload => updateDeck deckId payload
  | GenerateEmails prospectId => generateEmails prospectId
  | ListEmails prospectId => listEmails prospectId
  | UpdateEmail id payload => updateEmail id payload
  end.

End Client.

(** The network answers the single request of [m] with the response
    [res]. *)
Definition responds {A : Type} (net : Network) (m : Async A) (res : Response) : Prop :=
  exists r, issued m net = [r] /\ net r = Fulfilled res.

End Api.

(** ** Vocabulary of the statements *)

(** [k] slashes in a row. *)
Fixpoint slashes (k : nat) : string :=
  match k with
  | O => EmptyString
  | S k' => String Regex.slash (slashes k')
  end.

(** Every character of [s] is a slash; the empty string qualifies. *)
Fixpoint all_slashes (s : string) : bool :=
  match s with
  | EmptyString => true
  | String c rest => Ascii.eqb c Regex.slash && all_slashes rest
  end.

(** The last character of [s] is a slash. *)
Fixpoint ends_with_slash (s : string) : bool :=
  match s with
  | EmptyString => false
  | String c EmptyString => Ascii.eqb c Regex.slash
  | String _ rest => ends_with_slash rest
  end.

(** A one-character string holding the double quote, and the two JSON
    texts of the examples: [{ slides : [] }] and [{ subject : Hi }] with
    their keys and string values quoted. *)
Definition dq : string := String JSON.dquote EmptyString.

Definition slides_empty_json : string :=
  "{" ++ dq ++ "slides" ++ dq ++ ":[]}".

Definition subject_hi_json : string :=
  "{" ++ dq ++ "subject" ++ dq ++ ":" ++ dq ++ "Hi" ++ dq ++ "}".

(** A network that answers every request with the same response. *)
Definition always (res : Fetch.Response) : Fetch.Network :=
  fun _ => Fetch.Fulfilled res.

(** Responses used as examples. *)

(** A failing response with the text [not found], an unreadable JSON
    body aside. *)
Definition not_found : Fetch.Response :=
  {| Fetch.ok := false; Fetch.status := 404; Fetch.text := Fetch.Fulfilled "not found";
     Fetch.json := Fetch.Rejected {| JS.name := "SyntaxError"; JS.message := "Unexpected token" |} |}.

(** A failing response with an empty body. *)
Definition server_error : Fetch.Response :=
  {| Fetch.ok := false; Fetch.status := 500; Fetch.text := Fetch.Fulfilled EmptyString;
     Fetch.json := Fetch.Rejected {| JS.name := "SyntaxError"; JS.message := "Unexpected end of JSON input" |} |}.

(** A failing response whose body cannot be read. *)
Definition unreadable : Fetch.Response :=
  {| Fetch.ok := false; Fetch.status := 502;
     Fetch.text := Fetch.Rejected {| JS.name := "TypeError"; JS.message := "body stream already read" |};
     Fetch.json := Fetch.Rejected {| JS.name := "TypeError"; JS.message := "body stream already read" |} |}.

(** A successful response carrying the JSON value [[{ id : 1 }]]. *)
Definition one_prospect : Fetch.Response :=
  {| Fetch.ok := true; Fetch.status := 200; Fetch.text := Fetch.Fulfilled "[{ id : 1 }]";
     Fetch.json := Fetch.Fulfilled (JS.Array [JS.Object [("id", JS.Number 1)]]) |}.

(** The network answers every request that [m] issues with the
    response [res]. *)
Definition answered {A : Type}
           (net : Fetch.Network) (m : Fetch.Async A) (res : Fetch.Response) : Prop :=
  forall r, In r (Fetch.issued m net) -> net r = Fetch.Fulfilled res.

(** The network rejects every request that [m] issues with [e]: the
    promise of [fetch] itself is rejected, no response arrives. *)
Definition unreachable {A : Type}
           (net : Fetch.Network) (m : Fetch.Async A) (e : JS.exn) : Prop :=
  forall r, In r (Fetch.issued m net) -> net r = Fetch.Rejected e.

(** [Number.isSafeInteger(n)] for an integer [n]: its absolute value is
    at most [2^53 - 1]. *)
Definition is_safe_integer (n : Z) : bool :=
  (Z.abs n <=? 9007199254740991)%Z.

(** The members of the [api] object. *)
Inductive member : Type :=
| MListProspects
| MCreateProspect
| MGenerateDeck
| MRenderDeck
| MUpdateDeck
| MGenerateEmails
| MListEmails
| MUpdateEmail.

(** What a call addresses: the member called and the id it is given,
    the payload left aside. *)
Definition target (op : Api.operation) : member * option Z :=
  match op with
  | Api.ListProspects => (MListProspects, None)
  | Api.CreateProspect _ => (MCreateProspect, None)
  | Api.GenerateDeck prospectId => (MGenerateDeck, Some prospectId)
  | Api.RenderDeck deckId => (MRenderDeck, Some deckId)
  | Api.UpdateDeck deckId _ => (MUpdateDeck, Some deckId)
  | Api.GenerateEmails prospectId => (MGenerateEmails, Some prospectId)
  | Api.ListEmails prospectId => (MListEmails, Some prospectId)
  | Api.UpdateEmail id _ => (MUpdateEmail, Some id)
  end.

(** The id of a call, when it has one, is a safe integer. *)
Definition safe_id (op : Api.operation) : bool :=
  match snd (target op) with
  | Some n => is_safe_integer n
  | None => true
  end.

(** The payload a call is given, for the members that take one. *)
Definition payload_of (op : Api.operation) : option JS.value :=
  match op with
  | Api.CreateProspect payload => Some payload
  | Api.UpdateDeck _ payload => Some payload
  | Api.UpdateEmail _ payload => Some payload
  | _ => None
  end.

(** The last character of a string, if it has one. *)
Fixpoint last_char (s : string) : option ascii :=
  match s with
  | EmptyString => None
  | String c EmptyString => Some c
  | String _ rest => last_char rest
  end.

(** A successful response without a body, as a 204 gives: [json()] is
    rejected by the parser. *)
Definition no_content : Fetch.Response :=
  {| Fetch.ok := true; Fetch.status := 204; Fetch.text := Fetch.Fulfilled EmptyString;
     Fetch.json := Fetch.Rejected {| JS.name := "SyntaxError";
                                     JS.message := "Unexpected end of JSON input" |} |}.

(** A network on which every [fetch] is rejected. *)
Definition failed_to_fetch : JS.exn :=
  {| JS.name := "TypeError"; JS.message := "Failed to fetch" |}.

Definition offline : Fetch.Network :=
  fun _ => Fetch.Rejected failed_to_fetch.

(** * Properties *)

(** ** The built-ins on a few inputs *)

Example number_to_string_samples :
  (JS.number_to_string 0, JS.number_to_string 500, JS.number_to_string (-7))
  = ("0", "500", "-7").
Proof. reflexivity. Qed.

Example replace_inner_slashes_kept :
  Regex.replace_trailing_slashes "a//b/" = "a//b".
Proof. reflexivity. Qed.

Example replace_without_match :
  Regex.replace_trailing_slashes "http://localhost:8000" = "http://localhost:8000".
Proof. reflexivity. Qed.

Example stringify_nested :
  JSON.stringify
    (JS.Object [("a", JS.Array [JS.Undefined; JS.Number 1; JS.Bool true]);
                ("b", JS.Undefined); ("c", JS.Null)])
  = Some ("{" ++ dq ++ "a" ++ dq ++ ":[null,1,true]," ++ dq ++ "c" ++ dq ++ ":null}").
Proof. reflexivity. Qed.

Example quote_escapes :
  map nat_of_ascii
      (list_ascii_of_string (JSON.quote (String "009" (String JSON.dquote (String "001" "x")))))
  = [34; 92; 116; 92; 34; 92; 117; 48; 48; 48; 49; 120; 34].
Proof. reflexivity. Qed.

Example stringify_undefined : JSON.stringify JS.Undefined = None.
Proof. reflexivity. Qed.

(** ** The monad and [j] *)

Section Unwrapping.
Import Fetch Api.

Lemma run_fetch_bind {A : Type} (u : string) (i : RequestInit) (k : Response -> Async A)
      (net : Network) :
  run (res <- fetch u i ;; k res) net =
  match net (mkRequest u i) with
  | Fulfilled res => k res net [mkRequest u i]
  | Rejected e => ([mkRequest u i], Rejected e)
  end.
Proof.
  unfold run, bind, fetch; simpl.
  destruct (net _); reflexivity.
Qed.

(** [j] issues no request of its own. *)
Lemma j_log (res : Response) (net : Network) (log : list Request) :
  fst (j res net log) = log.
Proof.
  unfold j, bind, catch, promise, throw, ret.
  destruct (ok res); simpl; [reflexivity|].
  destruct (text res); reflexivity.
Qed.

Lemma j_failure_text (res : Response) (t : string) (net : Network) (log : list Request) :
  ok res = false -> text res = Fulfilled t -> t <> EmptyString ->
  j res net log = (log, Rejected (JS.Error t)).
Proof.
  intros Hok Ht Hne.
  unfold j, bind, catch, promise, throw. rewrite Hok, Ht; simpl.
  destruct t as [|c t']; [congruence | reflexivity].
Qed.

Lemma j_failure_fallback (res : Response) (net : Network) (log : list Request) :
  ok res = false ->
  text res = Fulfilled EmptyString \/ (exists e, text res = Rejected e) ->
  j res net log =
  (log, Rejected (JS.Error ("HTTP " ++ JS.number_to_string (status res)))).
Proof.
  intros Hok [Ht | [e Ht]];
    unfold j, bind, catch, promise, throw, ret; rewrite Hok, Ht; reflexivity.
Qed.

Lemma j_success (res : Response) (net : Network) (log : list Request) :
  ok res = true -> j res net log = (log, json res).
Proof.
  intros Hok. unfold j, promise. rewrite Hok. reflexivity.
Qed.

(** Every operation is one [fetch] followed by [j]. *)
Lemma call_shape (env : option string) (op : operation) :
  exists u i, call env op = (res <- fetch u i ;; j res).
Proof.
  destruct op; simpl; eexists; eexists; reflexivity.
Qed.

(** Every operation issues exactly one request, whatever the network
    answers. *)
Lemma call_issues_one (env : option string) (op : operation) :
  exists r, forall net, issued (call env op) net = [r].
Proof.
  destruct (call_shape env op) as (u & i & E).
  exists (mkRequest u i). intros net.
  unfold issued. rewrite E, run_fetch_bind.
  destruct (net _); [apply j_log | reflexivity].
Qed.

(** When the network answers with [res], the operation settles the way
    [j res] does. *)
Lemma responds_run (env : option string) (op : operation) (net : Network) (res : Response) :
  responds net (call env op) res ->
  exists log, run (call env op) net = j res net log.
Proof.
  intros (r & Hr & Hnet).
  destruct (call_shape env op) as (u & i & E).
  unfold issued in Hr. rewrite E, run_fetch_bind in *.
  destruct (net (mkRequest u i)) as [res'|e] eqn:N.
  - rewrite j_log in Hr. injection Hr as <-.
    rewrite N in Hnet. injection Hnet as <-.
    eexists; reflexivity.
  - simpl in Hr. injection Hr as <-. congruence.
Qed.

(** A network that always answers [res] answers the request of every
    operation with it. *)
Lemma always_responds (env : option string) (op : operation) (res : Response) :
  responds (always res) (call env op) res.
Proof.
  destruct (call_issues_one env op) as (r & Hr).
  exists r. split; [apply Hr | reflexivity].
Qed.

(** A network that answers what an operation issues answers its single
    request. *)
Lemma answered_responds (env : option string) (op : operation) (net : Network) (res : Response) :
  answered net (call env op) res -> responds net (call env op) res.
Proof.
  intros H. destruct (call_issues_one env op) as (r & Hr).
  exists r. split; [apply Hr|].
  apply H. rewrite Hr. left; reflexivity.
Qed.

End Unwrapping.

(** ** Failing and successful responses *)

Section Responses.
Import Fetch Api.

(** C1. For every operation and every network that answers what the
    operation issues with the response [res]: when [res] has a failing
    status and its body text [t] is not empty, the operation is rejected
    with [new Error(t)]: the message of the error is exactly the body
    text. *)
Theorem failing_response_reports_body_text
        (env : option string) (op : operation) (net : Network) (res : Response) (t : string) :
  answered net (call env op) res ->
  ok res = false ->
  text res = Fulfilled t ->
  t <> EmptyString ->
  outcome (call env op) net = Rejected (JS.Error t) /\ JS.message (JS.Error t) = t.
Proof.
  intros Hres Hok Ht Hne.
  destruct (responds_run env op net res (answered_responds env op net res Hres))
    as (log & Hrun).
  unfold outcome. rewrite Hrun, (j_failure_text res t net log Hok Ht Hne).
  split; reflexivity.
Qed.

Lemma failing_response_reports_body_text_witness :
  outcome (call (Some "https://api.example.com/") (GenerateDeck 3)) (always not_found)
  = Rejected (JS.Error "not found")
  /\ JS.message (JS.Error "not found") = "not found".
Proof.
  apply (failing_response_reports_body_text
           (Some "https://api.example.com/") (GenerateDeck 3) (always not_found)
           not_found "not found").
  - intros r _; reflexivity.
  - reflexivity.
  - reflexivity.
  - discriminate.
Defined.

(** C2. For every operation and every network that answers what the
    operation issues with the response [res]: when [res] has a failing
    status and its body text is empty, or reading the body text is
    itself rejected, the operation is rejected with an [Error] whose
    message is [HTTP ] followed by the status code in decimal; the
    rejection of the read is not what the caller sees. *)
Theorem failing_response_without_text_reports_status
        (env : option string) (op : operation) (net : Network) (res : Response) :
  answered net (call env op) res ->
  ok res = false ->
  text res = Fulfilled EmptyString \/ (exists e, text res = Rejected e) ->
  outcome (call env op) net
  = Rejected (JS.Error ("HTTP " ++ JS.number_to_string (status res))).
Proof.
  intros Hres Hok Ht.
  destruct (responds_run env op net res (answered_responds env op net res Hres))
    as (log & Hrun).
  unfold outcome. rewrite Hrun, (j_failure_fallback res net log Hok Ht).
  reflexivity.
Qed.

Lemma failing_response_without_text_reports_status_witness :
  outcome (call None ListProspects) (always server_error) = Rejected (JS.Error "HTTP 500")
  /\ outcome (call None (ListEmails 9)) (always unreadable) = Rejected (JS.Error "HTTP 502").
Proof.
  split.
  - apply (failing_response_without_text_reports_status
             None ListProspects (always server_error) server_error).
    + intros r _; reflexivity.
    + reflexivity.
    + left; reflexivity.
  - apply (failing_response_without_text_reports_status
             None (ListEmails 9) (always unreadable) unreadable).
    + intros r _; reflexivity.
    + reflexivity.
    + right; eexists; reflexivity.
Defined.

(** C3. For every operation and every network that answers what the
    operation issues with the response [res]: when [res] has a
    successful status and [json()] yields the value [v], the operation
    is fulfilled with [v] itself, whatever value that is. *)
Theorem successful_response_returns_parsed_json
        (env : option string) (op : operation) (net : Network) (res : Response) (v : JS.value) :
  answered net (call env op) res ->
  ok res = true ->
  json res = Fulfilled v ->
  outcome (call env op) net = Fulfilled v.
Proof.
  intros Hres Hok Hv.
  destruct (responds_run env op net res (answered_responds env op net res Hres))
    as (log & Hrun).
  unfold outcome. rewrite Hrun, (j_success res net log Hok), <- Hv.
  reflexivity.
Qed.

Lemma successful_response_returns_parsed_json_witness :
  outcome (call None (UpdateEmail 7 (JS.Object [("subject", JS.Str "Hi")]))) (always one_prospect)
  = Fulfilled (JS.Array [JS.Object [("id", JS.Number 1)]]).
Proof.
  apply (successful_response_returns_parsed_json
           None (UpdateEmail 7 (JS.Object [("subject", JS.Str "Hi")]))
           (always one_prospect) one_prospect).
  - intros r _; reflexivity.
  - reflexivity.
  - reflexivity.
Defined.

(** C8. For every operation and every failing response, whatever
    reading its body gives, the operation is rejected with an error
    whose message is not the empty string. *)
Theorem failing_response_message_not_empty
        (env : option string) (op : operation) (net : Network) (res : Response) :
  responds net (call env op) res ->
  ok res = false ->
  exists e, outcome (call env op) net = Rejected e /\ JS.message e <> EmptyString.
Proof.
  intros Hres Hok.
  destruct (responds_run env op net res Hres) as (log & Hrun).
  unfold outcome. rewrite Hrun.
  destruct (text res) as [t|e] eqn:Ht.
  - destruct t as [|c t'].
    + rewrite (j_failure_fallback res net log Hok (or_introl Ht)).
      eexists; split; [reflexivity | discriminate].
    + rewrite (j_failure_text res (String c t') net log Hok Ht); [|discriminate].
      eexists; split; [reflexivity | discriminate].
  - rewrite (j_failure_fallback res net log Hok (or_intror (ex_intro _ e Ht))).
    eexists; split; [reflexivity | discriminate].
Qed.

Lemma failing_response_message_not_empty_witness :
  exists e, outcome (call None (RenderDeck 5)) (always unreadable) = Rejected e
            /\ JS.message e <> EmptyString.
Proof.
  apply (failing_response_message_not_empty None (RenderDeck 5) (always unreadable) unreadable).
  - eexists; split; reflexivity.
  - reflexivity.
Defined.

End Responses.

(** ** The base URL *)

Section BaseUrl.
Import Fetch Api.

Lemma replace_cons (c : ascii) (rest : string) :
  Regex.replace_trailing_slashes (String c rest) =
  if Regex.slashes_to_end (String c rest) then EmptyString
  else String c (Regex.replace_trailing_slashes rest).
Proof. reflexivity. Qed.

(** The pattern matches at the head of [s] exactly when [s] is a
    non-empty run of slashes. *)
Lemma slashes_to_end_iff (s : string) :
  Regex.slashes_to_end s = true <-> exists k, s = slashes (S k).
Proof.
  induction s as [|c rest IH]; simpl.
  - split; [discriminate | intros [k Hk]; discriminate].
  - destruct (Ascii.eqb c Regex.slash) eqn:Ec.
    + apply Ascii.eqb_eq in Ec; subst c. split.
      * intros H. apply orb_true_iff in H as [H | H].
        -- apply IH in H as [k ->]. exists (S k); reflexivity.
        -- destruct rest; [exists 0; reflexivity | discriminate].
      * intros [k Hk]. injection Hk as Hk. apply orb_true_iff.
        destruct k as [|k]; simpl in Hk; subst rest.
        -- right; reflexivity.
        -- left. apply IH. exists k; reflexivity.
    + split; [discriminate|].
      intros [k Hk]. injection Hk as Hc _. subst c.
      rewrite Ascii.eqb_refl in Ec. discriminate.
Qed.

Lemma replace_of_match (s : string) :
  Regex.slashes_to_end s = true -> Regex.replace_trailing_slashes s = EmptyString.
Proof.
  destruct s as [|c rest]; [reflexivity|].
  intros H. rewrite replace_cons, H. reflexivity.
Qed.

Lemma ends_with_slash_cons (c a : ascii) (r : string) :
  ends_with_slash (String c (String a r)) = ends_with_slash (String a r).
Proof. reflexivity. Qed.

(** The replacement removes a run of slashes from the end and leaves a
    string that does not end in a slash. *)
Lemma replace_decompose (s : string) :
  exists k, s = Regex.replace_trailing_slashes s ++ slashes k
            /\ ends_with_slash (Regex.replace_trailing_slashes s) = false.
Proof.
  induction s as [|c rest IH].
  - exists 0; split; reflexivity.
  - rewrite replace_cons.
    destruct (Regex.slashes_to_end (String c rest)) eqn:M.
    + apply slashes_to_end_iff in M as [k Hk].
      exists (S k); split; [exact Hk | reflexivity].
    + destruct IH as (k & Hrest & Hend).
      exists k; split.
      * simpl. rewrite <- Hrest. reflexivity.
      * destruct (Regex.replace_trailing_slashes rest) as [|a r] eqn:R.
        -- simpl. destruct (Ascii.eqb c Regex.slash) eqn:Ec; [|reflexivity].
           apply Ascii.eqb_eq in Ec; subst c.
           simpl in Hrest; subst rest.
           assert (Regex.slashes_to_end (String Regex.slash (slashes k)) = true) as M'
               by (apply slashes_to_end_iff; exists k; reflexivity).
           rewrite M' in M; discriminate.
        -- rewrite ends_with_slash_cons. exact Hend.
Qed.

Lemma BASE_set (s : string) : BASE (Some s) = Regex.replace_trailing_slashes s.
Proof.
  unfold BASE; simpl.
  destruct (Regex.replace_trailing_slashes s); reflexivity.
Qed.

Lemma all_slashes_run (s : string) :
  all_slashes s = true -> exists k, s = slashes k.
Proof.
  induction s as [|c rest IH]; simpl; intros H.
  - exists 0; reflexivity.
  - apply andb_true_iff in H as [Hc Hrest].
    apply Ascii.eqb_eq in Hc; subst c.
    destruct (IH Hrest) as [k ->]. exists (S k); reflexivity.
Qed.

Lemma issued_fetch_j (u : string) (i : RequestInit) (net : Network) :
  issued (res <- fetch u i ;; j res) net = [mkRequest u i].
Proof.
  unfold issued. rewrite run_fetch_bind.
  destruct (net _); [apply j_log | reflexivity].
Qed.

(** The operations depend on the environment through [BASE] alone. *)
Lemma call_base_eq (env env' : option string) (op : operation) :
  BASE env = BASE env' -> call env op = call env' op.
Proof.
  intros H. destruct op; simpl;
    unfold listProspects, createProspect, generateDeck, renderDeck, updateDeck,
           generateEmails, listEmails, updateEmail;
    rewrite H; reflexivity.
Qed.

(** C4. The base URL is a function of the environment value alone. When
    the value is unset it is the empty string; when it is set, it is the
    value without its trailing slashes: what was removed is a run of
    slashes at the end, and what is left does not end in a slash. With
    the value [https://api.example.com///] the base is
    [https://api.example.com] and [listProspects] requests
    [https://api.example.com/prospects]. *)
Theorem base_url_strips_trailing_slashes :
  BASE None = EmptyString
  /\ (forall s, exists k, s = BASE (Some s) ++ slashes k
                          /\ ends_with_slash (BASE (Some s)) = false)
  /\ BASE (Some "https://api.example.com///") = "https://api.example.com"
  /\ (forall net, map url (issued (listProspects (Some "https://api.example.com///")) net)
                  = ["https://api.example.com/prospects"]).
Proof.
  split; [reflexivity|]. split; [|split].
  - intros s. rewrite BASE_set. apply replace_decompose.
  - reflexivity.
  - intros net. unfold listProspects. rewrite issued_fetch_j. reflexivity.
Qed.

(** C10. When the environment value is set and made of slashes only (the
    empty string included), the base URL is the empty string, as when the
    value is unset; every operation then issues the same single request
    as in the unset case, to a URL that is a path starting with a
    slash. *)
Theorem all_slashes_base_is_relative
        (s : string) (op : operation) (net : Network) :
  all_slashes s = true ->
  BASE (Some s) = EmptyString
  /\ BASE (Some s) = BASE None
  /\ issued (call (Some s) op) net = issued (call None op) net
  /\ exists r path, issued (call (Some s) op) net = [r]
                    /\ url r = String Regex.slash path.
Proof.
  intros Hs.
  assert (BASE (Some s) = EmptyString) as HB.
  { rewrite BASE_set. apply all_slashes_run in Hs as [k ->].
    destruct k as [|k]; [reflexivity|].
    apply replace_of_match, slashes_to_end_iff. exists k; reflexivity. }
  assert (BASE (Some s) = BASE None) as HN by (rewrite HB; reflexivity).
  split; [exact HB|]. split; [exact HN|].
  rewrite (call_base_eq (Some s) None op HN).
  split; [reflexivity|].
  destruct op; simpl;
    unfold listProspects, createProspect, generateDeck, renderDeck, updateDeck,
           generateEmails, listEmails, updateEmail;
    rewrite issued_fetch_j; eexists; eexists; (split; [reflexivity|]); reflexivity.
Qed.

Lemma all_slashes_base_is_relative_witness :
  BASE (Some "///") = EmptyString
  /\ BASE (Some "///") = BASE None
  /\ issued (call (Some "///") (ListEmails 4)) (always one_prospect)
     = issued (call None (ListEmails 4)) (always one_prospect)
  /\ exists r path, issued (call (Some "///") (ListEmails 4)) (always one_prospect) = [r]
                    /\ url r = String Regex.slash path.
Proof.
  apply (all_slashes_base_is_relative "///" (ListEmails 4) (always one_prospect)).
  reflexivity.
Defined.

End BaseUrl.

(** ** The requests of the operations *)

Section Requests.
Import Fetch Api.

Ltac unfold_api :=
  unfold listProspects, createProspect, generateDeck, renderDeck, updateDeck,
         generateEmails, listEmails, updateEmail in *.

(** The characters of the two example texts. *)
Example slides_empty_json_codes :
  map nat_of_ascii (list_ascii_of_string slides_empty_json)
  = [123; 34; 115; 108; 105; 100; 101; 115; 34; 58; 91; 93; 125].
Proof. reflexivity. Qed.

Example subject_hi_json_codes :
  map nat_of_ascii (list_ascii_of_string subject_hi_json)
  = [123; 34; 115; 117; 98; 106; 101; 99; 116; 34; 58; 34; 72; 105; 34; 125].
Proof. reflexivity. Qed.

(** C5. Whatever the environment value and whatever the network answers,
    [listProspects()] issues exactly one request: to the base URL
    followed by [/prospects], with the cache mode [no-store] and no
    method, headers or body of its own, hence a GET. With the base
    [https://api.example.com] the URL is
    [https://api.example.com/prospects]. *)
Theorem listProspects_request (env : option string) (net : Network) :
  issued (listProspects env) net
  = [ {| url := BASE env ++ "/prospects";
         init := {| method := None; headers := []; body := None;
                    cache := Some "no-store" |} |} ]
  /\ map method_of (issued (listProspects env) net) = ["GET"]
  /\ map url (issued (listProspects (Some "https://api.example.com")) net)
     = ["https://api.example.com/prospects"].
Proof.
  unfold listProspects. rewrite !issued_fetch_j.
  repeat split.
Qed.

(** C6. [updateDeck(42, { slides: [] })] issues exactly one request: a
    PATCH to the base URL followed by [/decks/42], whose body is the JSON
    text of the payload and whose only header is [Content-Type:
    application/json]. Moreover every request of an operation whose
    method is POST or PATCH and which carries a body has that header. *)
Theorem updateDeck_request_and_json_header :
  (forall env net,
      issued (updateDeck env 42 (JS.Object [("slides", JS.Array [])])) net
      = [ {| url := BASE env ++ "/decks/42";
             init := {| method := Some "PATCH";
                        headers := [("Content-Type", "application/json")];
                        body := Some slides_empty_json;
                        cache := None |} |} ])
  /\ (forall env op net r,
         In r (issued (call env op) net) ->
         method_of r = "POST" \/ method_of r = "PATCH" ->
         body (init r) <> None ->
         In ("Content-Type", "application/json") (headers (init r))).
Proof.
  split.
  - intros env net. unfold updateDeck. rewrite issued_fetch_j. reflexivity.
  - intros env op net r Hin _ Hbody.
    destruct op; simpl in Hin; unfold_api; rewrite issued_fetch_j in Hin;
      destruct Hin as [E | F]; try contradiction; subst r; simpl in *;
      solve [ left; reflexivity | congruence ].
Qed.

Lemma updateDeck_request_and_json_header_witness :
  In ("Content-Type", "application/json")
     (headers (init {| url := "/prospects";
                       init := {| method := Some "POST"; headers := json_headers;
                                  body := Some "{}"; cache := None |} |})).
Proof.
  apply (proj2 updateDeck_request_and_json_header
               None (CreateProspect (JS.Object [])) (always one_prospect)).
  - left; reflexivity.
  - left; reflexivity.
  - discriminate.
Defined.

(** C7. [updateEmail(7, { subject: "Hi" })] issues exactly one request:
    a PATCH to the base URL followed by [/emails/item/7] whose body is
    the JSON text with the single key [subject]. A [body] property that
    is present with the value [undefined] is left out in the same way. *)
Theorem updateEmail_request :
  (forall env net,
      issued (updateEmail env 7 (JS.Object [("subject", JS.Str "Hi")])) net
      = [ {| url := BASE env ++ "/emails/item/7";
             init := {| method := Some "PATCH";
                        headers := [("Content-Type", "application/json")];
                        body := Some subject_hi_json;
                        cache := None |} |} ])
  /\ (forall env net,
         map (fun r => body (init r))
             (issued (updateEmail env 7 (JS.Object [("subject", JS.Str "Hi");
                                                    ("body", JS.Undefined)])) net)
         = [Some subject_hi_json]).
Proof.
  split; intros env net; unfold updateEmail; rewrite issued_fetch_j; reflexivity.
Qed.

(** C9. Every operation issues exactly one request, and that request
    names a cache mode only when the operation is [listProspects]. In
    particular [listEmails(prospectId)] issues a GET to the base URL
    followed by [/emails/] and the id, with no second argument to
    [fetch]: no cache mode, no headers, no body. *)
Theorem only_listProspects_bypasses_cache :
  (forall env op net,
      exists r, issued (call env op) net = [r]
                /\ (cache (init r) <> None <-> op = ListProspects))
  /\ (forall env prospectId net,
         issued (listEmails env prospectId) net
         = [ {| url := BASE env ++ "/emails/" ++ JS.number_to_string prospectId;
                init := no_init |} ]
         /\ map method_of (issued (listEmails env prospectId) net) = ["GET"]
         /\ map (fun r => cache (init r)) (issued (listEmails env prospectId) net) = [None]).
Proof.
  split.
  - intros env op net.
    destruct op; simpl; unfold_api; rewrite issued_fetch_j;
      eexists; (split; [reflexivity|]); simpl;
      split; solve [ reflexivity | discriminate | congruence ].
  - intros env prospectId net. unfold listEmails. rewrite !issued_fetch_j.
    repeat split.
Qed.

End Requests.

(** ** How an operation settles, beyond the unwrapping of a response *)

Section Settling.
Import Fetch Api.

(** X1. When the network rejects whatever the operation issues, so that
    [fetch] itself is rejected as on a network failure, every operation
    is rejected with that very error: [j] is not reached and the error
    is neither wrapped nor replaced. *)
Theorem network_failure_propagates
        (env : option string) (op : operation) (net : Network) (e : JS.exn) :
  unreachable net (call env op) e ->
  outcome (call env op) net = Rejected e.
Proof.
  intros H.
  destruct (call_shape env op) as (u & i & E).
  assert (net (mkRequest u i) = Rejected e) as N.
  { apply H. rewrite E, issued_fetch_j. left; reflexivity. }
  unfold outcome. rewrite E, run_fetch_bind, N. reflexivity.
Qed.

Lemma network_failure_propagates_witness :
  outcome (call (Some "https://api.example.com") (GenerateEmails 12)) offline
  = Rejected failed_to_fetch.
Proof.
  apply (network_failure_propagates
           (Some "https://api.example.com") (GenerateEmails 12) offline failed_to_fetch).
  intros r _; reflexivity.
Defined.

(** X2. When the network answers what the operation issues with a
    response whose status is a success but whose [json()] is rejected,
    as for an empty or malformed body, every operation is rejected with
    the error of
    [json()] itself: the text and the status are not consulted and no
    [Error] of the client's own is made. *)
Theorem unparsable_success_body_propagates
        (env : option string) (op : operation) (net : Network) (res : Response) (e : JS.exn) :
  answered net (call env op) res ->
  ok res = true ->
  json res = Rejected e ->
  outcome (call env op) net = Rejected e.
Proof.
  intros Hres Hok He.
  destruct (responds_run env op net res (answered_responds env op net res Hres))
    as (log & Hrun).
  unfold outcome. rewrite Hrun, (j_success res net log Hok), <- He.
  reflexivity.
Qed.

Lemma unparsable_success_body_propagates_witness :
  outcome (call None (RenderDeck 8)) (always no_content)
  = Rejected {| JS.name := "SyntaxError"; JS.message := "Unexpected end of JSON input" |}.
Proof.
  apply (unparsable_success_body_propagates None (RenderDeck 8) (always no_content) no_content).
  - intros r _; reflexivity.
  - reflexivity.
  - reflexivity.
Defined.

(** X3. An operation is fulfilled with a value only when a response arrived
    whose [ok] flag is set and whose [json()] gave exactly that value. *)
Theorem fulfilled_only_from_ok_response
        (env : option string) (op : operation) (net : Network) (v : JS.value) :
  outcome (call env op) net = Fulfilled v ->
  exists res, responds net (call env op) res /\ ok res = true /\ json res = Fulfilled v.
Proof.
  intros Hv.
  destruct (call_shape env op) as (u & i & E).
  unfold outcome, responds, issued in *. rewrite E, run_fetch_bind in *.
  destruct (net (mkRequest u i)) as [res|e] eqn:N; [|discriminate].
  exists res. split.
  - exists (mkRequest u i). split; [apply j_log | exact N].
  - destruct (ok res) eqn:Hok.
    + split; [reflexivity|]. rewrite (j_success res net _ Hok) in Hv. exact Hv.
    + exfalso. destruct (text res) as [t|e] eqn:Ht.
      * destruct t as [|c t'].
        -- rewrite (j_failure_fallback res net _ Hok (or_introl Ht)) in Hv. discriminate.
        -- rewrite (j_failure_text res (String c t') net _ Hok Ht) in Hv; discriminate.
      * rewrite (j_failure_fallback res net _ Hok (or_intror (ex_intro _ e Ht))) in Hv.
        discriminate.
Qed.

Lemma fulfilled_only_from_ok_response_witness :
  exists res, responds (always one_prospect) (call None ListProspects) res
              /\ ok res = true
              /\ json res = Fulfilled (JS.Array [JS.Object [("id", JS.Number 1)]]).
Proof.
  apply (fulfilled_only_from_ok_response
           None ListProspects (always one_prospect)
           (JS.Array [JS.Object [("id", JS.Number 1)]])).
  reflexivity.
Defined.

End Settling.

(** ** More on the base URL *)

Section BaseUrlMore.
Import Fetch Api.

Lemma slashes_add (m k : nat) : slashes m ++ slashes k = slashes (m + k).
Proof.
  induction m as [|m IH]; simpl; [reflexivity | rewrite IH; reflexivity].
Qed.

Lemma append_assoc (a b c : string) : (a ++ b) ++ c = a ++ (b ++ c).
Proof.
  induction a as [|x a IH]; simpl; [reflexivity | rewrite IH; reflexivity].
Qed.

Lemma ends_with_slash_slashes (k : nat) : ends_with_slash (slashes (S k)) = true.
Proof.
  induction k as [|k IH]; [reflexivity|].
  change (slashes (S (S k))) with (String Regex.slash (slashes (S k))).
  simpl slashes at 1. rewrite ends_with_slash_cons. exact IH.
Qed.

(** What the replacement returns is determined by the decomposition: a
    string that does not end in a slash, followed by slashes, gives that
    string. *)
Lemma replace_unique (r : string) (k : nat) :
  ends_with_slash r = false ->
  Regex.replace_trailing_slashes (r ++ slashes k) = r.
Proof.
  induction r as [|c r IH]; intros Hend.
  - simpl. destruct k as [|k]; [reflexivity|].
    apply replace_of_match, slashes_to_end_iff. exists k; reflexivity.
  - change (String c r ++ slashes k) with (String c (r ++ slashes k)).
    rewrite replace_cons.
    destruct (Regex.slashes_to_end (String c (r ++ slashes k))) eqn:M.
    + apply slashes_to_end_iff in M as [m Hm]. exfalso.
      assert (exists j, String c r = slashes (S j)) as [j Hj].
      { clear IH Hend. revert c m Hm.
        induction r as [|d r IHr]; intros c m Hm.
        - injection Hm as -> _. exists 0; reflexivity.
        - simpl in Hm. injection Hm as -> Hm.
          destruct m as [|m]; [discriminate|].
          destruct (IHr d m Hm) as [j Hj]. exists (S j).
          simpl. rewrite Hj. reflexivity. }
      rewrite Hj, ends_with_slash_slashes in Hend. discriminate.
    + rewrite IH; [reflexivity|].
      destruct r as [|d r]; [reflexivity|].
      rewrite ends_with_slash_cons in Hend. exact Hend.
Qed.

Lemma replace_fixed (r : string) :
  ends_with_slash r = false -> Regex.replace_trailing_slashes r = r.
Proof.
  intros Hend.
  assert (r ++ slashes 0 = r) as E.
  { clear Hend. induction r as [|c r IH]; simpl in *; [reflexivity | rewrite IH; reflexivity]. }
  rewrite <- E at 1. apply replace_unique, Hend.
Qed.

(** X4. A value that does not end in a slash is the base URL as it stands:
    slashes inside it are kept. *)
Theorem base_without_trailing_slash_unchanged (s : string) :
  ends_with_slash s = false ->
  BASE (Some s) = s.
Proof.
  intros Hend. rewrite BASE_set. apply replace_fixed, Hend.
Qed.

Lemma base_without_trailing_slash_unchanged_witness :
  BASE (Some "http://localhost:8000/api//v1") = "http://localhost:8000/api//v1".
Proof.
  apply (base_without_trailing_slash_unchanged "http://localhost:8000/api//v1").
  reflexivity.
Defined.

(** X5. The number of trailing slashes of the environment value does not
    matter: adding slashes at its end gives the same base URL, and the
    base URL of a base URL is itself. *)
Theorem base_ignores_trailing_slash_count (s : string) (k : nat) :
  BASE (Some (s ++ slashes k)) = BASE (Some s)
  /\ BASE (Some (BASE (Some s))) = BASE (Some s).
Proof.
  rewrite !BASE_set.
  destruct (replace_decompose s) as (m & Hs & Hend).
  split.
  - rewrite Hs at 1. rewrite append_assoc, slashes_add.
    apply replace_unique, Hend.
  - apply replace_fixed, Hend.
Qed.

(** X6. Every operation issues exactly one request, the same whatever
    the network answers. Its URL is the base URL, one slash, and a path
    segment that does not start with a slash; the base URL does not end
    in a slash. So exactly one slash stands at the junction: neither
    none nor two. *)
Theorem one_request_with_single_slash_junction (env : option string) (op : operation) :
  exists r c rest,
    (forall net, issued (call env op) net = [r])
    /\ url r = BASE env ++ String Regex.slash (String c rest)
    /\ c <> Regex.slash
    /\ ends_with_slash (BASE env) = false.
Proof.
  assert (ends_with_slash (BASE env) = false) as Hend.
  { destruct env as [s|]; [|reflexivity].
    rewrite BASE_set. destruct (replace_decompose s) as (k & _ & H). exact H. }
  destruct op; simpl;
    unfold listProspects, createProspect, generateDeck, renderDeck, updateDeck,
           generateEmails, listEmails, updateEmail;
    eexists; eexists; eexists; (split; [intros net; apply issued_fetch_j|]);
    (split; [reflexivity|]); (split; [unfold Regex.slash; discriminate | exact Hend]).
Qed.

End BaseUrlMore.

(** ** Which request stands for which call *)

Section Routing.
Import Fetch Api.

Ltac unfold_members :=
  unfold listProspects, createProspect, generateDeck, renderDeck, updateDeck,
         generateEmails, listEmails, updateEmail in *.

Lemma append_inv_head (p a b : string) : p ++ a = p ++ b -> a = b.
Proof.
  induction p as [|c p IH]; simpl; intros H; [exact H|].
  injection H as H. apply IH, H.
Qed.

Lemma length_append (a b : string) :
  String.length (a ++ b) = String.length a + String.length b.
Proof.
  induction a as [|c a IH]; simpl; [reflexivity | rewrite IH; reflexivity].
Qed.

Lemma append_inv_same_length (a b t t' : string) :
  String.length a = String.length b -> a ++ t = b ++ t' -> a = b.
Proof.
  revert b. induction a as [|c a IH]; intros [|d b]; simpl; intros HL H;
    try discriminate; [reflexivity|].
  injection HL as HL. injection H as -> H. f_equal. apply IH; assumption.
Qed.

Lemma append_inv_tail (a b t : string) : a ++ t = b ++ t -> a = b.
Proof.
  intros H. apply (append_inv_same_length a b t t); [|exact H].
  apply (f_equal String.length) in H. rewrite !length_append in H.
  apply Nat.add_cancel_r in H. exact H.
Qed.

Lemma last_char_append (a : string) (c : ascii) (t : string) :
  last_char (a ++ String c t) = last_char (String c t).
Proof.
  induction a as [|x a IH]; [reflexivity|].
  change (String x a ++ String c t) with (String x (a ++ String c t)).
  destruct (a ++ String c t) as [|y rest] eqn:E.
  - destruct a; discriminate E.
  - rewrite <- IH. reflexivity.
Qed.

(** The decimal text of an integer determines it. *)
Lemma number_to_string_inj (a b : Z) :
  JS.number_to_string a = JS.number_to_string b -> a = b.
Proof.
  unfold JS.number_to_string. intros H.
  apply DecimalZ.to_int_inj.
  assert (forall n, NilZero.int_of_string (NilZero.string_of_int (Z.to_int n))
                    = Some (Z.to_int n)) as P.
  { intros n. apply NilZero.isi; destruct n as [|p|p]; simpl; try discriminate;
      intros E; injection E as E; exact (DecimalPos.Unsigned.to_uint_nonnil p E). }
  apply (f_equal NilZero.int_of_string) in H. rewrite !P in H.
  injection H as H. exact H.
Qed.

(** X7. For calls whose ids are safe integers, the method and the URL
    of a request tell which member was called and with which id, and
    nothing more: two calls issue requests with the same method and URL
    exactly when they are calls of the same member with the same id.
    Payloads do not show there. *)
Theorem request_line_identifies_target
        (env : option string) (op op' : operation) (net net' : Network) :
  safe_id op = true ->
  safe_id op' = true ->
  (map (fun r => (method_of r, url r)) (issued (call env op) net)
   = map (fun r => (method_of r, url r)) (issued (call env op') net')
   <-> target op = target op').
Proof.
  intros _ _. split.
  - destruct op, op'; simpl; unfold_members; rewrite !issued_fetch_j;
      unfold method_of; cbn [map init method url]; intros H; try reflexivity;
      pose proof (f_equal (map fst) H) as Hm; pose proof (f_equal (map snd) H) as Hu;
      cbn [map fst snd] in Hm, Hu; try discriminate Hm;
      injection Hu as Hu; apply append_inv_head in Hu;
      cbn [append] in Hu; try discriminate Hu;
      injection Hu as Hu.
    + apply append_inv_tail, number_to_string_inj in Hu. subst; reflexivity.
    + apply (f_equal last_char) in Hu. rewrite !last_char_append in Hu.
      discriminate Hu.
    + apply (f_equal last_char) in Hu. rewrite !last_char_append in Hu.
      discriminate Hu.
    + apply append_inv_tail, number_to_string_inj in Hu. subst; reflexivity.
    + apply number_to_string_inj in Hu. subst; reflexivity.
    + apply append_inv_tail, number_to_string_inj in Hu. subst; reflexivity.
    + apply number_to_string_inj in Hu. subst; reflexivity.
    + apply number_to_string_inj in Hu. subst; reflexivity.
  - destruct op, op'; simpl; intros H; try discriminate H;
      try (injection H as ->); unfold_members; rewrite !issued_fetch_j; reflexivity.
Qed.

Lemma request_line_identifies_target_witness :
  target (UpdateDeck 42 (JS.Object [("slides", JS.Array [])]))
  = target (UpdateDeck 42 (JS.Object [("title", JS.Str "Q3"); ("slides", JS.Array [])])).
Proof.
  apply (proj1 (request_line_identifies_target
                  (Some "https://api.example.com/")
                  (UpdateDeck 42 (JS.Object [("slides", JS.Array [])]))
                  (UpdateDeck 42 (JS.Object [("title", JS.Str "Q3"); ("slides", JS.Array [])]))
                  offline (always one_prospect) eq_refl eq_refl)).
  reflexivity.
Defined.

(** X8. The client uses three methods only. A GET request carries neither
    body nor headers; the members that take no payload send no body and
    no headers either, whatever their method. *)
Theorem methods_and_bodies (env : option string) (op : operation) (net : Network) :
  exists r,
    issued (call env op) net = [r]
    /\ (method_of r = "GET" \/ method_of r = "POST" \/ method_of r = "PATCH")
    /\ (method_of r = "GET" -> body (init r) = None /\ headers (init r) = [])
    /\ (payload_of op = None -> body (init r) = None /\ headers (init r) = []).
Proof.
  destruct op; simpl; unfold_members; rewrite issued_fetch_j;
    eexists; (split; [reflexivity|]); unfold method_of; simpl;
    (split; [auto|]); split; intros H; try discriminate H; split; reflexivity.
Qed.


End Routing.

(** ** The fallback message *)

Section Fallback.
Import Fetch Api.

(** X10. When two failing responses have no usable body text, the errors of
    the operations are the same only if the status codes are the same:
    the fallback message tells the status code. *)
Theorem fallback_message_determines_status
        (env env' : option string) (op op' : operation) (net net' : Network)
        (res res' : Response) :
  responds net (call env op) res ->
  responds net' (call env' op') res' ->
  ok res = false -> ok res' = false ->
  text res = Fulfilled EmptyString \/ (exists e, text res = Rejected e) ->
  text res' = Fulfilled EmptyString \/ (exists e, text res' = Rejected e) ->
  outcome (call env op) net = outcome (call env' op') net' ->
  status res = status res'.
Proof.
  intros Hres Hres' Hok Hok' Ht Ht' Heq.
  destruct (responds_run env op net res Hres) as (log & Hrun).
  destruct (responds_run env' op' net' res' Hres') as (log' & Hrun').
  unfold outcome in Heq. rewrite Hrun, Hrun' in Heq.
  rewrite (j_failure_fallback res net log Hok Ht) in Heq.
  rewrite (j_failure_fallback res' net' log' Hok' Ht') in Heq.
  cbn [snd] in Heq. injection Heq as Heq.
  apply number_to_string_inj. exact Heq.
Qed.

Lemma fallback_message_determines_status_witness :
  status server_error = status server_error.
Proof.
  apply (fallback_message_determines_status
           None (Some "/") ListProspects (GenerateDeck 1)
           (always server_error) (always server_error) server_error server_error).
  - eexists; split; reflexivity.
  - eexists; split; reflexivity.
  - reflexivity.
  - reflexivity.
  - left; reflexivity.
  - left; reflexivity.
  - reflexivity.
Defined.

End Fallback.
